(** * EVMJIT C interface: a shallow embedding of include/evmjit.h, of the
    earlier draft interface capi.c and of the example host examples/capi.c.

    Integers crossing the boundary are modelled as [Z]; a byte buffer
    ([char bytes[n]]) is a [list byte]. The host is little-endian, as the
    header assumes ("host-endian (that means little-endian almost all the
    time)"). *)

From Stdlib Require Import String ZArith List Lia Strings.Byte.
Import ListNotations.
Set Warnings "-register-all".
Open Scope Z_scope.

(** ** Bytes *)

Definition byte_val (b : byte) : Z := Z.of_N (Byte.to_N b).

(** The low 8 bits of [z] as a byte (a store of [z] into a [char]). *)
Definition byte_of_Z (z : Z) : byte :=
  match Byte.of_N (Z.to_N (z mod 256)) with
  | Some b => b
  | None => Byte.x00
  end.

(** ** Value codec: evmjit_uint256 and evmjit_hash256 *)

(** [struct evmjit_uint256 { uint64_t words[4]; }], words[0] the 64 lowest
    precision bits. *)
Record evmjit_uint256 := mk_uint256 { words : list Z }.

(** [struct evmjit_hash160 { char bytes[20]; }] *)
Record evmjit_hash160 := mk_hash160 { h160_bytes : list byte }.

(** [struct evmjit_hash256 { alignas(8) char bytes[32]; }], big-endian. *)
Record evmjit_hash256 := mk_hash256 { h256_bytes : list byte }.

(** The integer a host-endian [evmjit_uint256] denotes. *)
Definition uint256_value (u : evmjit_uint256) : Z :=
  fold_right (fun w acc => w + Z.shiftl acc 64) 0 (words u).

(** The four 64-bit words of a 256-bit integer. *)
Definition uint256_of_Z (z : Z) : evmjit_uint256 :=
  mk_uint256 (map (fun i => Z.land (Z.shiftr z (64 * i)) (Z.ones 64)) [0; 1; 2; 3]).

(** The integer a big-endian byte buffer denotes. *)
Definition be_value (bs : list byte) : Z :=
  fold_left (fun acc b => acc * 256 + byte_val b) bs 0.

(** The [n] low bytes of [z], most significant first. *)
Fixpoint be_bytes (n : nat) (z : Z) : list byte :=
  match n with
  | O => []
  | S n' => be_bytes n' (z / 256) ++ [byte_of_Z z]
  end.

(** The [n] low bytes of [z], least significant first: the memory image of
    an [n]-byte integer on a little-endian host. *)
Fixpoint le_bytes (n : nat) (z : Z) : list byte :=
  match n with
  | O => []
  | S n' => byte_of_Z z :: le_bytes n' (z / 256)
  end.

(** Modelled from the spec: the engine's byte swap between an
    [evmjit_hash256] and its internal host-endian [evmjit_uint256] (the
    conversion code is not part of src/). The buffer is read as a big-endian
    256-bit integer whose 64-bit words are stored lowest first. *)
Definition hash256_to_uint256 (h : evmjit_hash256) : evmjit_uint256 :=
  uint256_of_Z (be_value (h256_bytes h)).

(** Modelled from the spec: the opposite conversion. *)
Definition uint256_to_hash256 (u : evmjit_uint256) : evmjit_hash256 :=
  mk_hash256 (be_bytes 32 (uint256_value u)).

(** The 32 bytes of an [evmjit_uint256] as laid out in host memory. *)
Definition uint256_memory (u : evmjit_uint256) : list byte :=
  flat_map (le_bytes 8) (words u).

(** ** C object layout *)

(** The C types the interface is built from. [Talignas a t] is a member
    declared [alignas(a) t]; a pointer of any type is [Tptr]. *)
Inductive ctype :=
| Tchar | Tbool | Tint | Tenum | Tint64 | Tuint64 | Tsize_t | Tptr
| Tarray (t : ctype) (n : Z)
| Talignas (a : Z) (t : ctype)
| Tstruct (fields : list (string * ctype))
| Tunion (members : list (string * ctype)).

(** The parameters of a C ABI the layout depends on. *)
Record abi := mk_abi { ptr_size : Z; int64_align : Z }.

(** x86-64 System V (LP64) and i386 System V (ILP32). *)
Definition lp64 : abi := mk_abi 8 8.
Definition ilp32 : abi := mk_abi 4 4.

Definition align_up (x a : Z) : Z := (x + a - 1) / a * a.

Fixpoint alignof (A : abi) (t : ctype) : Z :=
  match t with
  | Tchar | Tbool => 1
  | Tint | Tenum => 4
  | Tint64 | Tuint64 => int64_align A
  | Tsize_t | Tptr => ptr_size A
  | Tarray t _ => alignof A t
  | Talignas a t => Z.max a (alignof A t)
  | Tstruct fs | Tunion fs =>
      (fix go (fs : list (string * ctype)) : Z :=
         match fs with
         | [] => 1
         | (_, f) :: fs => Z.max (alignof A f) (go fs)
         end) fs
  end.

(** Members are laid out in order, each at the next multiple of its
    alignment; a union is as large as its largest member; both are padded
    to a multiple of their alignment. *)
Fixpoint sizeof (A : abi) (t : ctype) : Z :=
  match t with
  | Tchar | Tbool => 1
  | Tint | Tenum => 4
  | Tint64 | Tuint64 => 8
  | Tsize_t | Tptr => ptr_size A
  | Tarray t n => n * sizeof A t
  | Talignas _ t => sizeof A t
  | Tstruct fs =>
      align_up
        ((fix go (off : Z) (fs : list (string * ctype)) : Z :=
            match fs with
            | [] => off
            | (_, f) :: fs => go (align_up off (alignof A f) + sizeof A f) fs
            end) 0 fs)
        (alignof A t)
  | Tunion fs =>
      align_up
        ((fix go (fs : list (string * ctype)) : Z :=
            match fs with
            | [] => 0
            | (_, f) :: fs => Z.max (sizeof A f) (go fs)
            end) fs)
        (alignof A t)
  end.

(** [offsetof] of the member [name] among the fields [fs] of a struct. *)
Fixpoint field_offset (A : abi) (off : Z) (fs : list (string * ctype)) (name : string)
  : option Z :=
  match fs with
  | [] => None
  | (n, f) :: fs =>
      let here := align_up off (alignof A f) in
      if String.eqb n name then Some here
      else field_offset A (here + sizeof A f) fs name
  end.

Definition evmjit_uint256_t : ctype := Tstruct [("words"%string, Tarray Tuint64 4)].
Definition evmjit_hash160_t : ctype := Tstruct [("bytes"%string, Tarray Tchar 20)].
Definition evmjit_hash256_t : ctype := Tstruct [("bytes"%string, Talignas 8 (Tarray Tchar 32))].
Definition evmjit_bytes_view_t : ctype := Tstruct [("bytes"%string, Tptr); ("size"%string, Tsize_t)].

(** The anonymous struct of [union evmjit_variant]. *)
Definition variant_address_fields : list (string * ctype) :=
  [("address_padding"%string, Tarray Tchar 12); ("address"%string, evmjit_hash160_t)].

(** [union evmjit_variant] *)
Definition evmjit_variant_t : ctype :=
  Tunion [("int64"%string, Tint64);
          ("uint256"%string, evmjit_uint256_t);
          (""%string, Tstruct variant_address_fields);
          ("bytes"%string, evmjit_bytes_view_t)].

(** The size of a cache line, which the header wants the variant to fit. *)
Definition cache_line : Z := 64.

(** ** The variant as memory *)

(** The object representation of a [union evmjit_variant]: its bytes in
    host (little-endian) order. Every member starts at offset 0. *)
Definition variant := list byte.

(** The integer a little-endian byte sequence denotes. *)
Definition le_value (bs : list byte) : Z :=
  fold_right (fun b acc => byte_val b + 256 * acc) 0 bs.

(** A store of [data] at offset [off] of the object [v]. *)
Definition store_at (v : variant) (off : nat) (data : list byte) : variant :=
  firstn off v ++ data ++ skipn (off + length data) v.

(** [v.int64 = x] *)
Definition variant_set_int64 (v : variant) (x : Z) : variant :=
  store_at v 0 (le_bytes 8 x).

(** [v.uint256 = u] *)
Definition variant_set_uint256 (v : variant) (u : evmjit_uint256) : variant :=
  store_at v 0 (uint256_memory u).

(** [v.int64]: the first 8 bytes read as a two's-complement integer. *)
Definition variant_get_int64 (v : variant) : Z :=
  let u := le_value (firstn 8 v) in
  if u <? 2 ^ 63 then u else u - 2 ^ 64.

(** A well-formed [evmjit_uint256]: four words, each a [uint64_t]. *)
Definition uint256_wf (u : evmjit_uint256) : Prop :=
  length (words u) = 4%nat /\ Forall (fun w => 0 <= w < 2 ^ 64) (words u).

(** [v.uint256] *)
Definition variant_get_uint256 (v : variant) : evmjit_uint256 :=
  mk_uint256 (map (fun i => le_value (firstn 8 (skipn (8 * i) v))) [0; 1; 2; 3]%nat).

(** [v.address], after the 12 bytes of [address_padding]. *)
Definition variant_get_address (v : variant) : evmjit_hash160 :=
  mk_hash160 (firstn 20 (skipn 12 v)).

(** ** Query keys *)

(** [enum evmjit_query_key] of include/evmjit.h. *)
Inductive evmjit_query_key :=
| evmjit_query_address
| evmjit_query_caller
| evmjit_query_origin
| evmjit_query_gas_price
| evmjit_query_coinbase
| evmjit_query_difficulty
| evmjit_query_gas_limit
| evmjit_query_number
| evmjit_query_timestamp
| evmjit_query_code_by_address
| evmjit_query_balance
| evmjit_query_storage.

(** The enumerator values, in declaration order from 0. *)
Definition query_key_to_Z (k : evmjit_query_key) : Z :=
  match k with
  | evmjit_query_address => 0
  | evmjit_query_caller => 1
  | evmjit_query_origin => 2
  | evmjit_query_gas_price => 3
  | evmjit_query_coinbase => 4
  | evmjit_query_difficulty => 5
  | evmjit_query_gas_limit => 6
  | evmjit_query_number => 7
  | evmjit_query_timestamp => 8
  | evmjit_query_code_by_address => 9
  | evmjit_query_balance => 10
  | evmjit_query_storage => 11
  end.

Definition all_query_keys : list evmjit_query_key :=
  [evmjit_query_address; evmjit_query_caller; evmjit_query_origin;
   evmjit_query_gas_price; evmjit_query_coinbase; evmjit_query_difficulty;
   evmjit_query_gas_limit; evmjit_query_number; evmjit_query_timestamp;
   evmjit_query_code_by_address; evmjit_query_balance; evmjit_query_storage].

(** The members of [union evmjit_variant]. *)
Inductive variant_member := V_int64 | V_uint256 | V_address | V_bytes.

(** The "Arg" column of the table of [evmjit_query_func]: the member of the
    argument that has a defined value, if any. *)
Definition query_arg (k : evmjit_query_key) : option variant_member :=
  match k with
  | evmjit_query_code_by_address | evmjit_query_balance => Some V_address
  | evmjit_query_storage => Some V_uint256
  | _ => None
  end.

(** The "Expected result" column of the table of [evmjit_query_func]. *)
Definition query_result (k : evmjit_query_key) : variant_member :=
  match k with
  | evmjit_query_gas_price => V_uint256
  | evmjit_query_address | evmjit_query_caller | evmjit_query_origin
  | evmjit_query_coinbase => V_address
  | evmjit_query_difficulty => V_uint256
  | evmjit_query_gas_limit | evmjit_query_number
  | evmjit_query_timestamp => V_int64
  | evmjit_query_code_by_address => V_bytes
  | evmjit_query_balance => V_uint256
  | evmjit_query_storage => V_uint256
  end.

(** ** Prototypes *)

(** The C types in the prototypes of the interface functions. *)
Inductive ptype :=
| P_void | P_bool | P_int | P_cstring | P_instance_ptr
| P_query_func | P_query_uint64_func | P_query_uint256_func | P_query_bytes_func
| P_store_storage_func | P_call_func | P_log_func.

Record prototype := mk_proto { ret : ptype; params : list ptype }.

(** [bool evmjit_set_option(struct evmjit_instance* jit, char const* name,
    char const* value)] *)
Definition evmjit_set_option_proto : prototype :=
  mk_proto P_bool [P_instance_ptr; P_cstring; P_cstring].

(** [struct evmjit_instance* evmjit_create_instance(evmjit_query_func,
    evmjit_store_storage_func, evmjit_call_func, evmjit_log_func)] *)
Definition evmjit_create_instance_proto : prototype :=
  mk_proto P_instance_ptr [P_query_func; P_store_storage_func; P_call_func; P_log_func].

(** [enum evmjit_query_key] of the draft interface capi.c, which has three
    typed query callbacks instead of one variant-based one. *)
Module Draft.

Inductive evmjit_query_key :=
| evmjit_query_gas_price
| evmjit_query_address
| evmjit_query_caller
| evmjit_query_origin
| evmjit_query_coinbase
| evmjit_query_difficulty
| evmjit_query_gas_limit
| evmjit_query_number
| evmjit_query_timestamp
| evmjit_query_code_by_hash
| evmjit_query_code_by_address
| evmjit_query_balance
| evmjit_storage_load.

(** [void evmjit_set_option(struct evmjit_instance*, int key, int value)] *)
Definition evmjit_set_option_proto : prototype :=
  mk_proto P_void [P_instance_ptr; P_int; P_int].

(** [struct evmjit_instance* evmjit_create_instance(evmjit_query_uint64_func,
    evmjit_query_uint256_func, evmjit_query_bytes_func,
    evmjit_store_storage_func, evmjit_call_func, evmjit_log_func)] *)
Definition evmjit_create_instance_proto : prototype :=
  mk_proto P_instance_ptr
    [P_query_uint64_func; P_query_uint256_func; P_query_bytes_func;
     P_store_storage_func; P_call_func; P_log_func].

(** The enumerator values of the draft keys, in declaration order from 0. *)
Definition query_key_to_Z (k : evmjit_query_key) : Z :=
  match k with
  | evmjit_query_gas_price => 0
  | evmjit_query_address => 1
  | evmjit_query_caller => 2
  | evmjit_query_origin => 3
  | evmjit_query_coinbase => 4
  | evmjit_query_difficulty => 5
  | evmjit_query_gas_limit => 6
  | evmjit_query_number => 7
  | evmjit_query_timestamp => 8
  | evmjit_query_code_by_hash => 9
  | evmjit_query_code_by_address => 10
  | evmjit_query_balance => 11
  | evmjit_storage_load => 12
  end.

(** [get_uint64] of the example in capi.c. *)
Definition get_uint64 {Env : Type} (env : Env) (key : evmjit_query_key) : Z :=
  match key with
  | evmjit_query_gas_price => 1
  | _ => 0
  end.

(** [get_uint256] of the example in capi.c. For the balance query the
    argument is reinterpreted in place as a [struct evmjit_hash256] (a
    pointer cast of [&arg]): the hash gets the argument's 32 bytes of
    memory. The host's [balance] is declared but not defined. *)
Definition get_uint256 {Env : Type}
    (balance : Env -> evmjit_hash256 -> evmjit_uint256)
    (env : Env) (key : evmjit_query_key) (arg : evmjit_uint256) : evmjit_uint256 :=
  match key with
  | evmjit_query_balance => balance env (mk_hash256 (uint256_memory arg))
  | _ => arg
  end.

End Draft.

(** The key of include/evmjit.h that asks for the same value. *)
Definition draft_header_key (k : Draft.evmjit_query_key) : option evmjit_query_key :=
  match k with
  | Draft.evmjit_query_gas_price => Some evmjit_query_gas_price
  | Draft.evmjit_query_address => Some evmjit_query_address
  | Draft.evmjit_query_caller => Some evmjit_query_caller
  | Draft.evmjit_query_origin => Some evmjit_query_origin
  | Draft.evmjit_query_coinbase => Some evmjit_query_coinbase
  | Draft.evmjit_query_difficulty => Some evmjit_query_difficulty
  | Draft.evmjit_query_gas_limit => Some evmjit_query_gas_limit
  | Draft.evmjit_query_number => Some evmjit_query_number
  | Draft.evmjit_query_timestamp => Some evmjit_query_timestamp
  | Draft.evmjit_query_code_by_hash => None
  | Draft.evmjit_query_code_by_address => Some evmjit_query_code_by_address
  | Draft.evmjit_query_balance => Some evmjit_query_balance
  | Draft.evmjit_storage_load => Some evmjit_query_storage
  end.

(** ** The example host of examples/capi.c *)

(** [query] of examples/capi.c. [result] is a local variable declared
    without initialiser: [uninit] is whatever its storage held. The source
    assigns [result.uint64] (lines 11 and 17), a member
    [union evmjit_variant] does not have, so the file does not compile as
    written. Those two assignments are read here as the store the code
    intends, to the 64-bit integer member [int64] at offset 0; the model is
    the example with that slip mended, not behaviour the source has. The
    host's [balance] is declared but not defined in the example. *)
Definition example_query {Env : Type}
    (balance : Env -> evmjit_hash160 -> evmjit_uint256)
    (env : Env) (uninit : variant) (key : evmjit_query_key) (arg : variant)
  : variant :=
  match key with
  | evmjit_query_gas_limit => variant_set_int64 uninit 314
  | evmjit_query_balance =>
      variant_set_uint256 uninit (balance env (variant_get_address arg))
  | _ => variant_set_int64 uninit 0
  end.

(** ** Execution results *)

(** [enum evmjit_return_code]; capi.c declares the same enumerators with
    the same values. *)
Inductive evmjit_return_code := evmjit_return | evmjit_selfdestruct | evmjit_exception.

Definition return_code_to_Z (c : evmjit_return_code) : Z :=
  match c with
  | evmjit_return => 0
  | evmjit_selfdestruct => 1
  | evmjit_exception => -1
  end.

(** The anonymous union of [struct evmjit_result]: the success struct, the
    self-destruct beneficiary, or nothing defined (after an exception).
    [internal_memory] is the engine-owned buffer holding the output, if one
    was allocated. *)
Inductive result_union :=
| U_success (output_data : list byte) (gas_left : Z) (internal_memory : option (list byte))
| U_selfdestruct (selfdestruct_beneficiary : evmjit_hash160)
| U_undefined.

(** [struct evmjit_result] *)
Record evmjit_result := mk_result { return_code : evmjit_return_code; payload : result_union }.

(** ** Callbacks and the instance *)

(** [enum evmjit_call_kind] *)
Inductive evmjit_call_kind := evmjit_call | evmjit_delegatecall | evmjit_callcode | evmjit_create.

(** [evmjit_query_func]; [Env] is the host's [struct evmjit_env]. *)
Definition evmjit_query_func (Env : Type) : Type :=
  Env -> evmjit_query_key -> variant -> variant.

(** [evmjit_store_storage_func], the host's environment passed as state. *)
Definition evmjit_store_storage_func (Env : Type) : Type :=
  Env -> evmjit_uint256 -> evmjit_uint256 -> Env.

(** [evmjit_call_func]: kind, gas, address, value, input data and the
    output buffer handed in; it gives the returned [int64_t] and the output
    buffer as the host left it. *)
Definition evmjit_call_func : Type :=
  evmjit_call_kind -> Z -> evmjit_hash160 -> evmjit_uint256 -> list byte -> list byte ->
  Z * list byte.

(** [evmjit_log_func]: log data, number of topics, topics. *)
Definition evmjit_log_func : Type := list byte -> nat -> list evmjit_hash256 -> unit.

(** The options set on an instance, most recent first. *)
Record instance_options := mk_options { options : list (string * string) }.

(** Modelled from the spec: the body of [evmjit_set_option] is not in src/.
    The spec: the recognized names include compatibility-mode selection
    and code-cache mode, an unrecognized name or value is reported as
    [false], and an unrecognized name leaves the state unchanged. Which
    names are recognized and which values each accepts is not given:
    [recognized] and [accepts] stand for it. *)
Definition evmjit_set_option (recognized : string -> bool)
    (accepts : string -> string -> bool)
    (st : instance_options) (name value : string) : bool * instance_options :=
  if (recognized name && accepts name value)%bool then
    (true, mk_options ((name, value)
                       :: filter (fun p => negb (String.eqb (fst p) name)) (options st)))
  else (false, st).

(** ** Execution *)

(** Modelled from the spec: the engine behind [evmjit_execute] is not in
    src/. Bytecode is taken decoded; opcode semantics and the gas table are
    outside the protocol, so an instruction is known by its gas cost and by
    how it ends or calls out. *)
Inductive instr :=
| I_op (cost : N)
| I_call (kind : evmjit_call_kind) (cost gas : N) (address : evmjit_hash160)
         (value : evmjit_uint256) (input : list byte) (out_size : nat)
| I_stop
| I_return (data : list byte)
| I_selfdestruct (beneficiary : evmjit_hash160)
| I_invalid.

(** What the engine keeps of a nested call. *)
Inductive call_outcome := Call_failed | Call_ok (output : list byte).

(** Modelled from the spec: how the engine reads the [int64_t] a call
    callback returns ("non-negative means gas remaining after the nested
    call, negative means the nested call raised an exception and the output
    buffer's contents are undefined"): the gas given back and the outcome. *)
Definition call_result (r : Z) (out : list byte) : Z * call_outcome :=
  if r <? 0 then (0, Call_failed) else (r, Call_ok out).

Definition exception_result : evmjit_result := mk_result evmjit_exception U_undefined.

Definition success_result (data : list byte) (gas : Z) : evmjit_result :=
  mk_result evmjit_return
    (U_success data gas (match data with [] => None | _ => Some data end)).

(** Modelled from the spec: the interpretation loop. Running out of gas or
    an invalid instruction ends in an exception; a call hands its gas to the
    host and takes back what the host returns; the outcomes of the nested
    calls are kept, most recent first. *)
Fixpoint run (call : evmjit_call_func) (code : list instr) (gas : Z)
    (outcomes : list call_outcome) : evmjit_result :=
  match code with
  | [] => success_result [] gas
  | I_op cost :: rest =>
      if gas <? Z.of_N cost then exception_result
      else run call rest (gas - Z.of_N cost) outcomes
  | I_call kind cost g address value input out_size :: rest =>
      let need := Z.of_N cost + Z.of_N g in
      if gas <? need then exception_result
      else
        let '(r, out) := call kind (Z.of_N g) address value input
                              (repeat Byte.x00 out_size) in
        let '(back, o) := call_result r out in
        run call rest (gas - need + back) (o :: outcomes)
  | I_stop :: _ => success_result [] gas
  | I_return data :: _ => success_result data gas
  | I_selfdestruct b :: _ => mk_result evmjit_selfdestruct (U_selfdestruct b)
  | I_invalid :: _ => exception_result
  end.

(** [evmjit_execute] for an instance whose call callback is [call]. *)
Definition evmjit_execute (call : evmjit_call_func) (code : list instr) (gas : Z)
  : evmjit_result :=
  run call code gas [].

(** ** Concrete inputs *)

Definition sample_hash256 : evmjit_hash256 :=
  mk_hash256 (map (fun n => byte_of_Z (Z.of_nat n)) (seq 1 32)).
Definition zero_address : evmjit_hash160 := mk_hash160 (repeat Byte.x00 20).
Definition zero_uint256 : evmjit_uint256 := mk_uint256 [0; 0; 0; 0].

(** A host whose nested calls leave half of their gas. *)
Definition half_gas_call : evmjit_call_func :=
  fun _ g _ _ _ out => (g / 2, out).

(** A host whose nested calls all fail, leaving garbage in the output. *)
Definition failing_call : evmjit_call_func :=
  fun _ _ _ _ _ out => (-1, repeat Byte.xff (length out)).

Definition sample_code : list instr :=
  [I_op 3; I_call evmjit_create 32000 1000 zero_address zero_uint256 [] 20; I_op 2; I_stop].

(** Storage holding 0x01 in every byte before [query] writes its result. *)
Definition garbage_variant : variant := repeat Byte.x01 32.

Definition no_balance (_ : unit) (_ : evmjit_hash160) : evmjit_uint256 := zero_uint256.

(** * Proofs *)

(** ** The value codec *)

Lemma byte_val_range (b : byte) : 0 <= byte_val b < 256.
Proof.
  unfold byte_val. pose proof (Byte.to_N_bounded b). lia.
Qed.

Lemma byte_of_Z_val (b : byte) (k : Z) : byte_of_Z (byte_val b + 256 * k) = b.
Proof.
  unfold byte_of_Z.
  replace (byte_val b + 256 * k) with (byte_val b + k * 256) by lia.
  rewrite Z.mod_add by lia.
  rewrite Z.mod_small by apply byte_val_range.
  unfold byte_val. rewrite N2Z.id, Byte.of_to_N. reflexivity.
Qed.

Lemma byte_of_Z_mod (z m : Z) : 0 < m -> byte_of_Z ((z mod (256 * m))) = byte_of_Z z.
Proof.
  intros Hm. unfold byte_of_Z.
  rewrite Z.rem_mul_r by lia.
  rewrite (Z.mul_comm 256), Z.mod_add by lia.
  rewrite Z.mod_mod by lia. reflexivity.
Qed.

Lemma be_value_app (l : list byte) (b : byte) :
  be_value (l ++ [b]) = be_value l * 256 + byte_val b.
Proof. unfold be_value. rewrite fold_left_app. reflexivity. Qed.

Lemma be_value_range (l : list byte) :
  0 <= be_value l < 256 ^ Z.of_nat (length l).
Proof.
  induction l as [|b l IH] using rev_ind.
  - unfold be_value; simpl; lia.
  - rewrite be_value_app, length_app, Nat2Z.inj_add. simpl Z.of_nat.
    rewrite Z.pow_add_r by lia.
    pose proof (byte_val_range b). lia.
Qed.

Lemma be_bytes_value (l : list byte) : be_bytes (length l) (be_value l) = l.
Proof.
  induction l as [|b l IH] using rev_ind.
  - reflexivity.
  - rewrite length_app, Nat.add_comm. simpl.
    rewrite be_value_app.
    pose proof (byte_val_range b).
    replace ((be_value l * 256 + byte_val b) / 256) with (be_value l)
      by (rewrite Z.div_add_l by lia; rewrite Z.div_small by lia; lia).
    rewrite IH. f_equal. f_equal.
    rewrite Z.add_comm, Z.mul_comm. apply byte_of_Z_val.
Qed.

Lemma rev_be_bytes (n : nat) (z : Z) : rev (be_bytes n z) = le_bytes n z.
Proof.
  revert z; induction n as [|n IH]; intros z; simpl.
  - reflexivity.
  - rewrite rev_app_distr, IH. reflexivity.
Qed.

Lemma le_bytes_add (a b : nat) (z : Z) :
  le_bytes (a + b) z = le_bytes a z ++ le_bytes b (z / 256 ^ Z.of_nat a).
Proof.
  revert z; induction a as [|a IH]; intros z; cbn [le_bytes Nat.add app].
  - rewrite Z.div_1_r. reflexivity.
  - rewrite IH, Nat2Z.inj_succ, Z.pow_succ_r, Z.div_div by lia.
    reflexivity.
Qed.

Lemma le_bytes_mod (n : nat) (z : Z) :
  le_bytes n (z mod 256 ^ Z.of_nat n) = le_bytes n z.
Proof.
  revert z; induction n as [|n IH]; intros z; cbn [le_bytes].
  - reflexivity.
  - rewrite Nat2Z.inj_succ, Z.pow_succ_r by lia.
    assert (Hp : 0 < 256 ^ Z.of_nat n) by (apply Z.pow_pos_nonneg; lia).
    rewrite byte_of_Z_mod by exact Hp.
    rewrite Z.rem_mul_r by lia.
    pose proof (Z.mod_pos_bound z 256 ltac:(lia)).
    rewrite Z.mul_comm, Z.div_add by lia.
    rewrite Z.div_small by lia. simpl. rewrite IH. reflexivity.
Qed.

Lemma uint256_of_Z_words (z : Z) :
  words (uint256_of_Z z) =
  [z mod 2 ^ 64; (z / 2 ^ 64) mod 2 ^ 64; (z / 2 ^ 128) mod 2 ^ 64;
   (z / 2 ^ 192) mod 2 ^ 64].
Proof.
  unfold uint256_of_Z; cbn [words map].
  rewrite !Z.land_ones, !Z.shiftr_div_pow2 by lia.
  replace (64 * 0) with 0 by reflexivity. rewrite Z.pow_0_r, Z.div_1_r.
  reflexivity.
Qed.

Lemma uint256_value_of_Z (z : Z) :
  0 <= z < 2 ^ 256 -> uint256_value (uint256_of_Z z) = z.
Proof.
  intros Hz. unfold uint256_value. rewrite uint256_of_Z_words.
  cbn [fold_right]. rewrite !Z.shiftl_mul_pow2 by lia.
  set (M := 2 ^ 64).
  assert (HM : 0 < M) by (unfold M; lia).
  replace (2 ^ 128) with (M * M) by reflexivity.
  replace (2 ^ 192) with (M * M * M) by reflexivity.
  rewrite <- !Z.div_div by lia.
  set (z1 := z / M). set (z2 := z1 / M). set (z3 := z2 / M).
  assert (H3 : 0 <= z3 < M).
  { unfold z3, z2, z1. rewrite !Z.div_div by lia. split.
    - apply Z.div_pos; lia.
    - apply Z.div_lt_upper_bound; [lia|]. unfold M in *. lia. }
  rewrite (Z.mod_small z3) by exact H3.
  pose proof (Z.div_mod z M ltac:(lia)) as E0.
  pose proof (Z.div_mod z1 M ltac:(lia)) as E1.
  pose proof (Z.div_mod z2 M ltac:(lia)) as E2.
  fold z1 in E0. fold z2 in E1. fold z3 in E2.
  lia.
Qed.

Lemma uint256_memory_of_Z (z : Z) :
  0 <= z -> uint256_memory (uint256_of_Z z) = le_bytes 32 z.
Proof.
  intros Hz. unfold uint256_memory. rewrite uint256_of_Z_words.
  cbn [flat_map]. rewrite app_nil_r.
  replace (2 ^ 64) with (256 ^ Z.of_nat 8) by reflexivity.
  rewrite !le_bytes_mod.
  replace 32%nat with (8 + (8 + (8 + 8)))%nat by reflexivity.
  rewrite !le_bytes_add.
  replace (2 ^ 128) with (256 ^ Z.of_nat 8 * 256 ^ Z.of_nat 8) by reflexivity.
  replace (2 ^ 192) with (256 ^ Z.of_nat 8 * 256 ^ Z.of_nat 8 * 256 ^ Z.of_nat 8)
    by reflexivity.
  rewrite <- !Z.div_div by lia.
  reflexivity.
Qed.

(** C2: for every 32-byte big-endian buffer [B], converting it to the
    host-endian four-word [evmjit_uint256] and back yields [B]; and the
    host memory image of the words is [B] reversed, i.e. the conversion
    reverses both the word order and the byte order inside each word. *)
Theorem hash256_uint256_roundtrip (h : evmjit_hash256) :
  length (h256_bytes h) = 32%nat ->
  uint256_to_hash256 (hash256_to_uint256 h) = h /\
  uint256_memory (hash256_to_uint256 h) = rev (h256_bytes h).
Proof.
  destruct h as [bs]; cbn [h256_bytes]. intros Hlen.
  pose proof (be_value_range bs) as Hr. rewrite Hlen in Hr.
  unfold hash256_to_uint256, uint256_to_hash256; cbn [h256_bytes].
  split.
  - rewrite uint256_value_of_Z by (cbv [Z.of_nat] in Hr; lia).
    rewrite <- Hlen, be_bytes_value. reflexivity.
  - rewrite uint256_memory_of_Z by lia.
    rewrite <- rev_be_bytes, <- Hlen, be_bytes_value. reflexivity.
Qed.

Lemma hash256_uint256_roundtrip_witness :
  length (h256_bytes sample_hash256) = 32%nat /\
  uint256_to_hash256 (hash256_to_uint256 sample_hash256) = sample_hash256 /\
  uint256_memory (hash256_to_uint256 sample_hash256) = rev (h256_bytes sample_hash256).
Proof.
  split; [reflexivity|]. apply hash256_uint256_roundtrip. reflexivity.
Defined.

Example sample_hash256_words :
  words (hash256_to_uint256 sample_hash256) =
  [0x191a1b1c1d1e1f20; 0x1112131415161718; 0x090a0b0c0d0e0f10; 0x0102030405060708].
Proof. vm_compute. reflexivity. Qed.

(** ** Execution results and the engine *)

Lemma run_gas_left (call : evmjit_call_func)
    (Hcall : forall k g a v i o, 0 <= g -> fst (call k g a v i o) <= g) :
  forall code gas outcomes, 0 <= gas ->
  return_code (run call code gas outcomes) = evmjit_return ->
  exists data gl mem,
    payload (run call code gas outcomes) = U_success data gl mem /\ 0 <= gl <= gas.
Proof.
  induction code as [|i rest IH]; intros gas outcomes Hg.
  - cbn. intros _. do 3 eexists. split; [reflexivity | lia].
  - destruct i as [cost | kind cost g address value input out_size | | data | b |];
      cbn [run].
    + destruct (gas <? Z.of_N cost) eqn:E; [discriminate|].
      apply Z.ltb_ge in E. intros Hr.
      destruct (IH (gas - Z.of_N cost) outcomes ltac:(lia) Hr) as (d & gl & m & Hp & Hb).
      exists d, gl, m. split; [exact Hp | lia].
    + destruct (gas <? Z.of_N cost + Z.of_N g) eqn:E; [discriminate|].
      apply Z.ltb_ge in E.
      pose proof (Hcall kind (Z.of_N g) address value input (repeat Byte.x00 out_size)
                    ltac:(lia)) as Hb.
      destruct (call kind (Z.of_N g) address value input (repeat Byte.x00 out_size))
        as [r out].
      cbn [fst] in Hb. unfold call_result.
      destruct (r <? 0) eqn:Er; intros Hr.
      * specialize (fun H => IH _ _ H Hr).
        destruct IH as (d & gl & m & Hp & Hgl); [lia|].
        exists d, gl, m. split; [exact Hp | lia].
      * apply Z.ltb_ge in Er. specialize (fun H => IH _ _ H Hr).
        destruct IH as (d & gl & m & Hp & Hgl); [lia|].
        exists d, gl, m. split; [exact Hp | lia].
    + intros _. do 3 eexists. split; [reflexivity | lia].
    + intros _. do 3 eexists. split; [reflexivity | lia].
    + discriminate.
    + discriminate.
Qed.

(** C1: for a host whose call callback honours its contract (a
    non-negative return is the gas left of the gas it was given) and a gas
    supply in [0, 2^63-1], every result of [evmjit_execute] whose return
    code is normal-stop carries the success payload, and its [gas_left] is
    non-negative and at most the gas supplied. *)
Theorem execute_gas_left_bounds (call : evmjit_call_func) (code : list instr) (gas : Z)
    (Hcall : forall k g a v i o, 0 <= g -> fst (call k g a v i o) <= g)
    (Hgas : 0 <= gas <= 2 ^ 63 - 1) :
  return_code (evmjit_execute call code gas) = evmjit_return ->
  exists data gas_left mem,
    payload (evmjit_execute call code gas) = U_success data gas_left mem /\
    0 <= gas_left <= gas.
Proof.
  unfold evmjit_execute. apply run_gas_left; [exact Hcall | lia].
Qed.

Lemma execute_gas_left_bounds_witness :
  (forall k g a v i o, 0 <= g -> fst (half_gas_call k g a v i o) <= g) /\
  0 <= 200000 <= 2 ^ 63 - 1 /\
  exists data gas_left mem,
    payload (evmjit_execute half_gas_call sample_code 200000) = U_success data gas_left mem /\
    0 <= gas_left <= 200000.
Proof.
  assert (Hh : forall k g a v i o, 0 <= g -> fst (half_gas_call k g a v i o) <= g).
  { intros k g a v i o Hg. cbn. apply Z.div_le_upper_bound; lia. }
  split; [exact Hh|]. split; [lia|].
  apply (execute_gas_left_bounds half_gas_call sample_code 200000 Hh).
  - lia.
  - vm_compute. reflexivity.
Defined.

Example sample_code_result :
  evmjit_execute half_gas_call sample_code 200000 = success_result [] (200000 - 3 - 33000 + 500 - 2).
Proof. reflexivity. Qed.

(** C4: when the call callback returns a negative value the engine records
    the nested call as failed, keeps none of the output buffer, consumes
    all the gas it handed over and carries on with the next instruction;
    when it returns a non-negative value that value is taken back as the
    gas left after the nested call and the output is kept. *)
Theorem call_result_interpretation (call : evmjit_call_func) (kind : evmjit_call_kind)
    (cost g : N) (address : evmjit_hash160) (value : evmjit_uint256) (input : list byte)
    (out_size : nat) (rest : list instr) (gas : Z) (outcomes : list call_outcome)
    (r : Z) (out : list byte)
    (Hgas : Z.of_N cost + Z.of_N g <= gas)
    (Hcall : call kind (Z.of_N g) address value input (repeat Byte.x00 out_size) = (r, out)) :
  (r < 0 ->
   run call (I_call kind cost g address value input out_size :: rest) gas outcomes =
   run call rest (gas - Z.of_N cost - Z.of_N g) (Call_failed :: outcomes)) /\
  (0 <= r ->
   run call (I_call kind cost g address value input out_size :: rest) gas outcomes =
   run call rest (gas - Z.of_N cost - Z.of_N g + r) (Call_ok out :: outcomes)).
Proof.
  cbn [run]. destruct (gas <? Z.of_N cost + Z.of_N g) eqn:E.
  { apply Z.ltb_lt in E. lia. }
  rewrite Hcall. unfold call_result. split; intros Hr.
  - apply Z.ltb_lt in Hr. rewrite Hr. f_equal. lia.
  - apply Z.ltb_ge in Hr. rewrite Hr. f_equal. lia.
Qed.

Lemma call_result_interpretation_witness :
  Z.of_N 32000 + Z.of_N 1000 <= 200000 /\
  failing_call evmjit_create (Z.of_N 1000) zero_address zero_uint256 [] (repeat Byte.x00 20)
    = (-1, repeat Byte.xff 20) /\
  run failing_call [I_call evmjit_create 32000 1000 zero_address zero_uint256 [] 20; I_stop]
      200000 [] =
  run failing_call [I_stop] (200000 - Z.of_N 32000 - Z.of_N 1000) [Call_failed].
Proof.
  split; [lia|]. split; [reflexivity|].
  apply (call_result_interpretation failing_call evmjit_create 32000 1000 zero_address
           zero_uint256 [] 20 [I_stop] 200000 [] (-1) (repeat Byte.xff 20)).
  - lia.
  - reflexivity.
  - lia.
Defined.

(** C10: the return codes are encoded as normal-stop = 0, self-destruct = 1
    and exception = -1, so the return code of an execution result is
    negative exactly when the execution ended with an exception. *)
Theorem return_code_negative_iff_exception (res : evmjit_result) :
  return_code_to_Z evmjit_return = 0 /\ return_code_to_Z evmjit_selfdestruct = 1 /\
  return_code_to_Z evmjit_exception = -1 /\
  (return_code_to_Z (return_code res) < 0 <-> return_code res = evmjit_exception).
Proof.
  split; [reflexivity|]. split; [reflexivity|]. split; [reflexivity|].
  destruct (return_code res); cbn; split; intros H; solve [lia | discriminate | reflexivity].
Qed.

(** ** Query keys *)

(** C3 (the query table): in the variant-based query channel of
    include/evmjit.h the keys address, caller, origin, gas-price, coinbase,
    difficulty, gas-limit, number and timestamp have no argument with a
    defined value, and the result member is fixed per key (address for
    address/caller/origin/coinbase, 256-bit integer for gas-price and
    difficulty, 64-bit integer for gas-limit/number/timestamp); code-by-address
    and balance take an address and storage-load a 256-bit key, and they
    return a byte view, a 256-bit integer and a 256-bit integer. The
    enumeration has exactly these twelve keys. The draft interface in
    capi.c has one key more, code-by-hash, which has no counterpart in the
    header, and no key other than it lacks one. *)
Theorem query_key_table :
  map query_arg all_query_keys =
    [None; None; None; None; None; None; None; None; None;
     Some V_address; Some V_address; Some V_uint256] /\
  map query_result all_query_keys =
    [V_address; V_address; V_address; V_uint256; V_address; V_uint256;
     V_int64; V_int64; V_int64; V_bytes; V_uint256; V_uint256] /\
  (forall k, In k all_query_keys) /\ NoDup all_query_keys /\
  map query_key_to_Z all_query_keys = [0; 1; 2; 3; 4; 5; 6; 7; 8; 9; 10; 11] /\
  (forall k, draft_header_key k = None <-> k = Draft.evmjit_query_code_by_hash).
Proof.
  split; [reflexivity|]. split; [reflexivity|]. split.
  { intros k; destruct k; cbn; tauto. }
  split.
  { unfold all_query_keys.
    repeat constructor; cbn; intros H; repeat (destruct H as [H|H]; [discriminate|]);
      exact H. }
  split; [reflexivity|].
  intros k; destruct k; cbn; split; intros H; solve [reflexivity | discriminate].
Qed.

(** C3 fails on the draft interface: the query keys of capi.c include one,
    [evmjit_query_code_by_hash], that is none of the twelve keys. *)
Lemma draft_query_key_code_by_hash :
  ~ (forall k : Draft.evmjit_query_key, draft_header_key k <> None).
Proof.
  intros H. apply (H Draft.evmjit_query_code_by_hash). reflexivity.
Qed.

(** ** Prototypes and the instance *)

(** C6 (amended): in include/evmjit.h the configuration operation is
    [(instance, name : string, value : string) -> bool], and an unrecognized
    option name gives [false] and leaves the instance's options unchanged;
    the draft interface in capi.c declares it [(instance, int, int) -> void]. *)
Theorem set_option_unrecognized (recognized : string -> bool)
    (accepts : string -> string -> bool) (st : instance_options) (name value : string)
    (Hname : recognized name = false) :
  evmjit_set_option_proto = mk_proto P_bool [P_instance_ptr; P_cstring; P_cstring] /\
  evmjit_set_option recognized accepts st name value = (false, st) /\
  Draft.evmjit_set_option_proto = mk_proto P_void [P_instance_ptr; P_int; P_int].
Proof.
  split; [reflexivity|]. split; [|reflexivity].
  unfold evmjit_set_option. rewrite Hname. reflexivity.
Qed.

Lemma set_option_unrecognized_witness :
  (fun n => String.eqb n "compatibility"%string) "optimize"%string = false /\
  evmjit_set_option (fun n => String.eqb n "compatibility"%string) (fun _ _ => true)
    (mk_options [("compatibility"%string, "homestead"%string)]) "optimize"%string "on"%string =
  (false, mk_options [("compatibility"%string, "homestead"%string)]).
Proof.
  split; [reflexivity|].
  apply (set_option_unrecognized (fun n => String.eqb n "compatibility"%string) (fun _ _ => true)
           (mk_options [("compatibility"%string, "homestead"%string)]) "optimize"%string "on"%string).
  reflexivity.
Defined.

(** C6 fails on the draft interface: there the configuration operation
    takes two [int]s and returns nothing. *)
Lemma draft_set_option_signature :
  Draft.evmjit_set_option_proto <> mk_proto P_bool [P_instance_ptr; P_cstring; P_cstring].
Proof. discriminate. Qed.



(** ** Layout of the variant *)

(** C8 (code_bug): the doc comment of [union evmjit_variant] says the type
    is 64 bytes, one cache line; on every ABI with 4- or 8-byte pointers and
    4- or 8-byte alignment of 64-bit integers it is 32 bytes (its 256-bit
    member is the largest), not 64. The rest of the claimed layout holds:
    the address member sits at offset 12 of its struct, after exactly 12
    bytes of padding, and padding plus address fill 32 bytes, the size of
    the 256-bit member. *)
Theorem variant_size_not_cache_line (A : abi)
    (Hptr : ptr_size A = 4 \/ ptr_size A = 8)
    (Hi64 : int64_align A = 4 \/ int64_align A = 8) :
  sizeof A evmjit_variant_t = 32 /\ sizeof A evmjit_variant_t <> cache_line /\
  sizeof A (Tarray Tchar 12) = 12 /\
  field_offset A 0 variant_address_fields "address"%string = Some 12 /\
  sizeof A (Tstruct variant_address_fields) = sizeof A evmjit_uint256_t /\
  sizeof A evmjit_uint256_t = 32.
Proof.
  destruct A as [p a]; cbn [ptr_size int64_align] in *.
  destruct Hptr as [-> | ->]; destruct Hi64 as [-> | ->]; vm_compute;
    repeat split; discriminate.
Qed.

Lemma variant_size_not_cache_line_witness :
  (ptr_size lp64 = 4 \/ ptr_size lp64 = 8) /\ (int64_align lp64 = 4 \/ int64_align lp64 = 8) /\
  sizeof lp64 evmjit_variant_t = 32 /\ sizeof lp64 evmjit_variant_t <> cache_line /\
  sizeof lp64 (Tarray Tchar 12) = 12 /\
  field_offset lp64 0 variant_address_fields "address"%string = Some 12 /\
  sizeof lp64 (Tstruct variant_address_fields) = sizeof lp64 evmjit_uint256_t /\
  sizeof lp64 evmjit_uint256_t = 32.
Proof.
  split; [right; reflexivity|]. split; [right; reflexivity|].
  apply variant_size_not_cache_line; right; reflexivity.
Defined.

(** ** The example host *)

(** C9 (code_bug): the example host answers a storage-load query through
    its default branch, which stores 0 into the 64-bit member only; the
    upper 192 bits of the 256-bit result keep whatever the uninitialised
    [result] held, so the answer is not the 256-bit zero. *)
Theorem example_query_storage_not_zero :
  let v := example_query no_balance tt garbage_variant evmjit_query_storage
             (repeat Byte.x00 32) in
  variant_get_uint256 v =
    mk_uint256 [0; 0x0101010101010101; 0x0101010101010101; 0x0101010101010101] /\
  uint256_value (variant_get_uint256 v) <> 0.
Proof.
  vm_compute. split; [reflexivity | discriminate].
Qed.

(** ** Members of the variant *)

Lemma le_bytes_length (n : nat) (z : Z) : length (le_bytes n z) = n.
Proof. revert z; induction n as [|n IH]; intros z; cbn; [reflexivity | now rewrite IH]. Qed.

Lemma byte_val_of_Z (z : Z) : byte_val (byte_of_Z z) = z mod 256.
Proof.
  unfold byte_of_Z, byte_val.
  pose proof (Z.mod_pos_bound z 256 ltac:(lia)) as Hb.
  pose proof (Byte.to_of_N_option_map (Z.to_N (z mod 256))) as E.
  replace (N.leb (Z.to_N (z mod 256)) 255) with true in E
    by (symmetry; apply N.leb_le; lia).
  destruct (Byte.of_N (Z.to_N (z mod 256))) as [b|]; [|discriminate].
  cbn in E. injection E as E. rewrite E. lia.
Qed.

Lemma le_value_le_bytes (n : nat) (z : Z) :
  le_value (le_bytes n z) = z mod 256 ^ Z.of_nat n.
Proof.
  revert z; induction n as [|n IH]; intros z.
  - cbn. rewrite Z.mod_1_r. reflexivity.
  - cbn [le_bytes]. unfold le_value; cbn [fold_right]; fold (le_value (le_bytes n (z / 256))).
    rewrite IH, byte_val_of_Z, Nat2Z.inj_succ, Z.pow_succ_r by lia.
    rewrite Z.rem_mul_r by (try apply Z.pow_pos_nonneg; lia). reflexivity.
Qed.

Lemma le_bytes_le_value (bs : list byte) : le_bytes (length bs) (le_value bs) = bs.
Proof.
  induction bs as [|b bs IH]; [reflexivity|].
  cbn [length le_bytes].
  change (le_value (b :: bs)) with (byte_val b + 256 * le_value bs).
  pose proof (byte_val_range b).
  replace ((byte_val b + 256 * le_value bs) / 256) with (le_value bs).
  - rewrite IH, byte_of_Z_val. reflexivity.
  - rewrite Z.mul_comm, Z.div_add by lia. rewrite Z.div_small by lia. lia.
Qed.

Lemma firstn_le_bytes (n : nat) (z : Z) (l : list byte) :
  firstn n (le_bytes n z ++ l) = le_bytes n z.
Proof.
  rewrite firstn_app, le_bytes_length, Nat.sub_diag, firstn_O, app_nil_r.
  rewrite <- (le_bytes_length n z) at 1. apply firstn_all.
Qed.

Lemma skipn_le_bytes (n : nat) (z : Z) (l : list byte) :
  skipn n (le_bytes n z ++ l) = l.
Proof.
  rewrite skipn_app, le_bytes_length, Nat.sub_diag, skipn_O.
  rewrite <- (le_bytes_length n z) at 1. rewrite skipn_all. reflexivity.
Qed.

Lemma variant_set_int64_bytes (v : variant) (x : Z) :
  variant_set_int64 v x = le_bytes 8 x ++ skipn 8 v.
Proof. unfold variant_set_int64, store_at. rewrite le_bytes_length. reflexivity. Qed.

Lemma uint256_memory_wf (u : evmjit_uint256) :
  uint256_wf u ->
  exists w0 w1 w2 w3, words u = [w0; w1; w2; w3] /\
    0 <= w0 < 2 ^ 64 /\ 0 <= w1 < 2 ^ 64 /\ 0 <= w2 < 2 ^ 64 /\ 0 <= w3 < 2 ^ 64.
Proof.
  destruct u as [ws]; unfold uint256_wf; cbn [words]. intros [Hl Hf].
  destruct ws as [|w0 [|w1 [|w2 [|w3 [|w4 ws]]]]]; try discriminate.
  inversion Hf as [|? ? B0 Hf1]; inversion Hf1 as [|? ? B1 Hf2];
    inversion Hf2 as [|? ? B2 Hf3]; inversion Hf3 as [|? ? B3 _]; subst.
  exists w0, w1, w2, w3. repeat split; lia.
Qed.

Lemma uint256_get_set (v : variant) (u : evmjit_uint256) :
  uint256_wf u -> variant_get_uint256 (variant_set_uint256 v u) = u.
Proof.
  intros Hwf. destruct (uint256_memory_wf u Hwf) as (w0 & w1 & w2 & w3 & Hw & H0 & H1 & H2 & H3).
  destruct u as [ws]; cbn [words] in Hw; subst ws.
  unfold variant_set_uint256, store_at, uint256_memory, variant_get_uint256.
  cbn [flat_map map words].
  rewrite firstn_O, app_nil_l, app_nil_r, <- !app_assoc.
  replace (8 * 0)%nat with 0%nat by reflexivity.
  replace (8 * 1)%nat with 8%nat by reflexivity.
  replace (8 * 2)%nat with (8 + 8)%nat by reflexivity.
  replace (8 * 3)%nat with (8 + 8 + 8)%nat by reflexivity.
  rewrite skipn_O, <- !skipn_skipn, !skipn_le_bytes, !firstn_le_bytes, !le_value_le_bytes.
  replace (256 ^ Z.of_nat 8) with (2 ^ 64) by reflexivity.
  rewrite !Z.mod_small by lia. reflexivity.
Qed.

Lemma uint256_memory_get (bs : list byte) :
  length bs = 32%nat -> uint256_memory (variant_get_uint256 bs) = bs.
Proof.
  intros Hl.
  assert (Hc : forall l : list byte, length l = 8%nat -> le_bytes 8 (le_value l) = l).
  { intros l Hk. rewrite <- Hk. apply le_bytes_le_value. }
  do 32 (destruct bs as [|? bs]; [discriminate|]).
  destruct bs; [|discriminate].
  unfold uint256_memory, variant_get_uint256. cbn [flat_map map words firstn skipn Nat.mul Nat.add].
  rewrite !Hc by reflexivity. reflexivity.
Qed.

(** X1: the 64-bit integer member of the variant round-trips: storing any
    [int64_t] value into [v.int64] and reading [v.int64] back gives the
    value, whatever the variant held before. *)
Theorem variant_int64_roundtrip (v : variant) (x : Z) (Hx : - 2 ^ 63 <= x < 2 ^ 63) :
  variant_get_int64 (variant_set_int64 v x) = x.
Proof.
  unfold variant_get_int64. rewrite variant_set_int64_bytes, firstn_le_bytes, le_value_le_bytes.
  replace (256 ^ Z.of_nat 8) with (2 ^ 64) by reflexivity.
  pose proof (Z.div_mod x (2 ^ 64) ltac:(lia)) as E.
  pose proof (Z.mod_pos_bound x (2 ^ 64) ltac:(lia)) as B.
  destruct (x mod 2 ^ 64 <? 2 ^ 63) eqn:L; [apply Z.ltb_lt in L | apply Z.ltb_ge in L]; lia.
Qed.

Lemma variant_int64_roundtrip_witness :
  - 2 ^ 63 <= -5 < 2 ^ 63 /\ variant_get_int64 (variant_set_int64 garbage_variant (-5)) = -5.
Proof. split; [lia|]. apply variant_int64_roundtrip. lia. Defined.

(** X3: the example host reads its argument only for the balance query,
    and there only the 20 address bytes after the 12 bytes of padding: two
    arguments that agree on the address member, or any two arguments for
    another key, give the same answer. *)
Theorem example_query_reads_only_address {Env : Type}
    (balance : Env -> evmjit_hash160 -> evmjit_uint256) (env : Env)
    (uninit : variant) (key : evmjit_query_key) (arg1 arg2 : variant)
    (Hargs : key <> evmjit_query_balance \/ variant_get_address arg1 = variant_get_address arg2) :
  example_query balance env uninit key arg1 = example_query balance env uninit key arg2.
Proof.
  destruct key; try reflexivity.
  destruct Hargs as [H|H]; [congruence|]. cbn. rewrite H. reflexivity.
Qed.

Lemma example_query_reads_only_address_witness :
  (evmjit_query_storage <> evmjit_query_balance \/
   variant_get_address garbage_variant = variant_get_address (repeat Byte.x00 32)) /\
  example_query no_balance tt garbage_variant evmjit_query_storage garbage_variant =
  example_query no_balance tt garbage_variant evmjit_query_storage (repeat Byte.x00 32).
Proof.
  assert (H : evmjit_query_storage <> evmjit_query_balance \/
              variant_get_address garbage_variant = variant_get_address (repeat Byte.x00 32))
    by (left; discriminate).
  split; [exact H|]. apply example_query_reads_only_address. exact H.
Defined.

(** X5: the draft example host's [get_uint256] in capi.c passes the
    argument's 32 bytes unchanged to [balance]: when the engine hands the
    bytes of a 256-bit hash over as the [struct evmjit_uint256] argument,
    [balance] receives that very hash. For every other key the argument
    comes back unchanged. *)
Theorem draft_get_uint256_pun {Env : Type}
    (balance : Env -> evmjit_hash256 -> evmjit_uint256) (env : Env)
    (h : evmjit_hash256) (Hh : length (h256_bytes h) = 32%nat) :
  Draft.get_uint256 balance env Draft.evmjit_query_balance
    (variant_get_uint256 (h256_bytes h)) = balance env h /\
  (forall key arg, key <> Draft.evmjit_query_balance ->
     Draft.get_uint256 balance env key arg = arg).
Proof.
  split.
  - cbn [Draft.get_uint256]. rewrite uint256_memory_get by exact Hh.
    destruct h. reflexivity.
  - intros key arg Hk. destruct key; try reflexivity. congruence.
Qed.

Lemma draft_get_uint256_pun_witness :
  length (h256_bytes sample_hash256) = 32%nat /\
  Draft.get_uint256 (fun (_ : unit) (h : evmjit_hash256) => zero_uint256) tt
    Draft.evmjit_query_balance (variant_get_uint256 (h256_bytes sample_hash256)) =
    zero_uint256.
Proof.
  split; [reflexivity|].
  apply (proj1 (draft_get_uint256_pun (fun (_ : unit) (h : evmjit_hash256) => zero_uint256)
                  tt sample_hash256 eq_refl)).
Defined.

(** X6: the pointer cast in the draft [get_uint256] reinterprets a
    [struct evmjit_uint256] as a [struct evmjit_hash256]: the two have the
    same size, 32 bytes, on both LP64 and ILP32. The hash demands 8-byte
    alignment on both, while the 256-bit integer has only 4-byte alignment
    where 64-bit integers are 4-byte aligned (ILP32), so there the cast may
    produce a misaligned hash. *)
Theorem uint256_hash256_pun_layout :
  sizeof lp64 evmjit_uint256_t = 32 /\ sizeof lp64 evmjit_hash256_t = 32 /\
  sizeof ilp32 evmjit_uint256_t = 32 /\ sizeof ilp32 evmjit_hash256_t = 32 /\
  alignof lp64 evmjit_hash256_t = 8 /\ alignof ilp32 evmjit_hash256_t = 8 /\
  alignof lp64 evmjit_uint256_t = 8 /\ alignof ilp32 evmjit_uint256_t = 4.
Proof. vm_compute. repeat split. Qed.

(** X7: the draft query keys of capi.c and the keys of include/evmjit.h
    that ask for the same value have the same enumerator value only for
    coinbase, difficulty, gas limit, number and timestamp; for every other
    key present in both, the two integer codes differ. *)
Theorem draft_header_key_codes (k : Draft.evmjit_query_key) (k' : evmjit_query_key)
    (Hk : draft_header_key k = Some k') :
  Draft.query_key_to_Z k = query_key_to_Z k' <->
  In k' [evmjit_query_coinbase; evmjit_query_difficulty; evmjit_query_gas_limit;
         evmjit_query_number; evmjit_query_timestamp].
Proof.
  destruct k; cbn in Hk; try discriminate; injection Hk as <-; cbn;
    split; intros H; try discriminate;
    repeat (destruct H as [H|H]; try discriminate); tauto.
Qed.

Lemma draft_header_key_codes_witness :
  draft_header_key Draft.evmjit_query_balance = Some evmjit_query_balance /\
  (Draft.query_key_to_Z Draft.evmjit_query_balance = query_key_to_Z evmjit_query_balance <->
   In evmjit_query_balance [evmjit_query_coinbase; evmjit_query_difficulty;
     evmjit_query_gas_limit; evmjit_query_number; evmjit_query_timestamp]).
Proof. split; [reflexivity|]. apply draft_header_key_codes. reflexivity. Defined.

Lemma le_value_app (a b : list byte) :
  le_value (a ++ b) = le_value a + 256 ^ Z.of_nat (length a) * le_value b.
Proof.
  induction a as [|x a IH].
  - rewrite app_nil_l. change (le_value []) with 0.
    change (Z.of_nat (length [])) with 0. rewrite Z.pow_0_r. lia.
  - rewrite <- app_comm_cons.
    change (le_value (x :: a ++ b)) with (byte_val x + 256 * le_value (a ++ b)).
    change (le_value (x :: a)) with (byte_val x + 256 * le_value a).
    rewrite IH. cbn [length]. rewrite Nat2Z.inj_succ, Z.pow_succ_r by lia. lia.
Qed.

(** X8: on a little-endian host the 32 bytes of memory of a
    [struct evmjit_uint256], read as a little-endian number, are the value
    its words denote with [words[0]] the least significant: the in-memory
    form is the host-endian 256-bit integer. *)
Theorem uint256_memory_le_value (u : evmjit_uint256) (Hwf : uint256_wf u) :
  le_value (uint256_memory u) = uint256_value u.
Proof.
  destruct Hwf as [_ Hb]. destruct u as [ws]. unfold uint256_memory, uint256_value.
  cbn [words] in *. induction Hb as [|w ws Hw _ IH]; [reflexivity|].
  cbn [flat_map fold_right]. rewrite le_value_app, le_value_le_bytes, le_bytes_length, IH.
  replace (256 ^ Z.of_nat 8) with (2 ^ 64) by reflexivity.
  rewrite Z.mod_small, Z.shiftl_mul_pow2 by lia. lia.
Qed.

Lemma uint256_memory_le_value_witness :
  uint256_wf (mk_uint256 [1; 0; 0; 2 ^ 64 - 1]) /\
  le_value (uint256_memory (mk_uint256 [1; 0; 0; 2 ^ 64 - 1])) =
    uint256_value (mk_uint256 [1; 0; 0; 2 ^ 64 - 1]).
Proof.
  assert (H : uint256_wf (mk_uint256 [1; 0; 0; 2 ^ 64 - 1])).
  { split; [reflexivity|]. repeat constructor; lia. }
  split; [exact H|]. apply uint256_memory_le_value. exact H.
Defined.
